(** * express-jobly: the SQL construction helpers and the Job model

    A shallow embedding of [helpers/sql.js] ([sqlForPartialUpdate]) and of
    the parts of [models/job.js] that build and run SQL ([Job.update],
    [Job.findAll], [Job.get], [Job.remove]), and of the query coercions of
    the jobs list route in [routes/jobs.js].  JavaScript values are a small tagged union;
    JavaScript objects are association lists in property-creation order,
    with the ordering rules of [Object.keys] / [Object.values] and the
    [Object.prototype] fallback of property access written out. *)

From Stdlib Require Import String Ascii ZArith List Bool Lia Permutation
  Sorting.Sorted Numbers.DecimalString.
Import ListNotations.
Open Scope string_scope.
#[local] Set Warnings "-register-all".

(** ** JavaScript values *)

Inductive jsval : Type :=
| JUndef
| JNull
| JBool (b : bool)
| JNum (n : Z)
| JStr (s : string)
| JFun (src : string)
| JObj (props : list (string * jsval)).

(** A plain object: own enumerable properties in creation order. *)
Definition jsobj := list (string * jsval).

Definition nat_to_string (n : nat) : string :=
  NilEmpty.string_of_uint (Nat.to_uint n).

Definition Z_to_string (z : Z) : string :=
  NilEmpty.string_of_int (Z.to_int z).

(** [ToString], as used by template literals. *)
Definition js_to_string (v : jsval) : string :=
  match v with
  | JUndef => "undefined"
  | JNull => "null"
  | JBool true => "true"
  | JBool false => "false"
  | JNum n => Z_to_string n
  | JStr s => s
  | JFun src => src
  | JObj _ => "[object Object]"
  end.

(** [ToBoolean]. *)
Definition truthy (v : jsval) : bool :=
  match v with
  | JUndef | JNull => false
  | JBool b => b
  | JNum n => negb (Z.eqb n 0)
  | JStr s => negb (String.eqb s "")
  | JFun _ | JObj _ => true
  end.

(** [a || b] *)
Definition js_or (a b : jsval) : jsval := if truthy a then a else b.

(** [v === true] *)
Definition is_true_strict (v : jsval) : bool :=
  match v with JBool true => true | _ => false end.

(** [v !== undefined] *)
Definition is_defined (v : jsval) : bool :=
  match v with JUndef => false | _ => true end.

(** ** Objects *)

Fixpoint get_own (o : jsobj) (k : string) : option jsval :=
  match o with
  | [] => None
  | (k', v) :: o' => if String.eqb k k' then Some v else get_own o' k
  end.

(** The properties every plain object inherits from [Object.prototype]. *)
Definition native (name : string) : jsval :=
  JFun ("function " ++ name ++ "() { [native code] }").

Definition object_prototype : jsobj :=
  [ ("constructor", native "Object");
    ("__defineGetter__", native "__defineGetter__");
    ("__defineSetter__", native "__defineSetter__");
    ("hasOwnProperty", native "hasOwnProperty");
    ("__lookupGetter__", native "__lookupGetter__");
    ("__lookupSetter__", native "__lookupSetter__");
    ("isPrototypeOf", native "isPrototypeOf");
    ("propertyIsEnumerable", native "propertyIsEnumerable");
    ("toString", native "toString");
    ("valueOf", native "valueOf");
    ("__proto__", JObj []);
    ("toLocaleString", native "toLocaleString") ].

(** Property access [o[k]]: own property, then [Object.prototype],
    else [undefined]. *)
Definition get_prop (o : jsobj) (k : string) : jsval :=
  match get_own o k with
  | Some v => v
  | None =>
      match get_own object_prototype k with
      | Some v => v
      | None => JUndef
      end
  end.

(** [delete o[k]] *)
Definition obj_delete (o : jsobj) (k : string) : jsobj :=
  filter (fun p => negb (String.eqb (fst p) k)) o.

(** [o[k] = v]: an existing property keeps its place, a new one is added
    last. *)
Fixpoint obj_set (o : jsobj) (k : string) (v : jsval) : jsobj :=
  match o with
  | [] => [(k, v)]
  | (k', v') :: o' =>
      if String.eqb k k' then (k', v) :: o' else (k', v') :: obj_set o' k v
  end.

(** *** Array indices and the order of [Object.keys]

    A key is an array index when it is the canonical decimal form of an
    integer [0 <= n < 2^32 - 1].  [Object.keys] lists array-index keys
    first, in ascending numeric order, then the other string keys in
    creation order. *)

Definition digit_val (c : ascii) : option Z :=
  let n := nat_of_ascii c in
  if andb (Nat.leb 48 n) (Nat.leb n 57) then Some (Z.of_nat (n - 48)) else None.

Fixpoint digits_val (acc : Z) (s : string) : option Z :=
  match s with
  | EmptyString => Some acc
  | String c s' =>
      match digit_val c with
      | Some d => digits_val (acc * 10 + d) s'
      | None => None
      end
  end.

Definition array_index (s : string) : option Z :=
  match s with
  | EmptyString => None
  | String c s' =>
      if andb (Ascii.eqb c "0"%char) (negb (String.eqb s' "")) then None
      else
        match digits_val 0 s with
        | Some n => if Z.ltb n (2 ^ 32 - 1) then Some n else None
        | None => None
        end
  end.

Definition is_index_key (k : string) : bool :=
  match array_index k with Some _ => true | None => false end.

Definition index_of (k : string) : Z :=
  match array_index k with Some n => n | None => 0%Z end.

Definition index_le (p q : string * jsval) : Prop :=
  (index_of (fst p) <= index_of (fst q))%Z.

Fixpoint insert_by_index (p : string * jsval) (l : jsobj) : jsobj :=
  match l with
  | [] => [p]
  | q :: l' =>
      if Z.leb (index_of (fst p)) (index_of (fst q)) then p :: q :: l'
      else q :: insert_by_index p l'
  end.

Fixpoint sort_by_index (l : jsobj) : jsobj :=
  match l with
  | [] => []
  | p :: l' => insert_by_index p (sort_by_index l')
  end.

(** OrdinaryOwnPropertyKeys, restricted to string keys. *)
Definition own_props_ordered (o : jsobj) : jsobj :=
  app (sort_by_index (filter (fun p => is_index_key (fst p)) o))
      (filter (fun p => negb (is_index_key (fst p))) o).

Definition object_keys (o : jsobj) : list string := map fst (own_props_ordered o).
Definition object_values (o : jsobj) : list jsval := map snd (own_props_ordered o).

(** ** Errors *)

Inductive express_error : Type :=
| BadRequestError (msg : string)
| NotFoundError (msg : string).

Inductive result (A : Type) : Type :=
| Ok (a : A)
| Err (e : express_error).
Arguments Ok {A} a.
Arguments Err {A} e.

(** ** helpers/sql.js: sqlForPartialUpdate *)

Record partial_update := { setCols : string; values : list jsval }.

Fixpoint join (sep : string) (l : list string) : string :=
  match l with
  | [] => ""
  | [s] => s
  | s :: l' => s ++ sep ++ join sep l'
  end.

(** The double-quote character. *)
Definition dquote : string := String (ascii_of_nat 34) EmptyString.

(** [keys.map((colName, idx) => ...)] *)
Fixpoint mapi_from {A B} (f : A -> nat -> B) (i : nat) (l : list A) : list B :=
  match l with
  | [] => []
  | a :: l' => f a i :: mapi_from f (S i) l'
  end.

(** [`"${jsToSql[colName] || colName}"=$${idx + 1}`] *)
Definition col_fragment (jsToSql : jsobj) (colName : string) (idx : nat) : string :=
  dquote ++ js_to_string (js_or (get_prop jsToSql colName) (JStr colName))
  ++ dquote ++ "=$" ++ nat_to_string (idx + 1).

Definition sqlForPartialUpdate (dataToUpdate jsToSql : jsobj)
  : result partial_update :=
  let keys := object_keys dataToUpdate in
  if Nat.eqb (length keys) 0 then Err (BadRequestError "No data")
  else
    let cols := mapi_from (col_fragment jsToSql) 0 keys in
    Ok {| setCols := join ", " cols; values := object_values dataToUpdate |}.

(** ** models/job.js *)

Module Job.

(** *** Job.update: the statement and parameters passed to [db.query] *)

Definition update_sql (setCols jobIdIndex : string) : string :=
  "UPDATE jobs 
                      SET " ++ setCols ++ " 
                      WHERE id = " ++ jobIdIndex ++ " 
                      RETURNING id, 
                                title, 
                                salary, 
                                equity,
                                company_handle AS " ++ dquote ++ "companyHandle"
  ++ dquote.

Definition update_query (id : jsval) (data : jsobj)
  : result (string * list jsval) :=
  match sqlForPartialUpdate data [] with
  | Err e => Err e
  | Ok pu =>
      let jobIdIndex := "$" ++ nat_to_string (length (values pu) + 1) in
      Ok (update_sql (setCols pu) jobIdIndex, app (values pu) [id])
  end.

(** *** Job.findAll: the statement and parameters passed to [db.query] *)

Definition findAll_base : string :=
  "SELECT j.id,
                        j.title,
                        j.salary,
                        j.equity,
                        j.company_handle AS " ++ dquote ++ "companyHandle" ++ dquote
  ++ ",
                        c.name AS " ++ dquote ++ "companyName" ++ dquote ++ "
                 FROM jobs j 
                   LEFT JOIN companies AS c ON c.handle = j.company_handle".

Definition order_by : string := " ORDER BY title".

(** The three [if] blocks, threading [queryWhereClauses] and
    [queryParameters]. *)
Definition push_minSalary (minSalary : jsval) (st : list string * list jsval)
  : list string * list jsval :=
  let '(queryWhereClauses, queryParameters) := st in
  if is_defined minSalary then
    let queryParameters := app queryParameters [minSalary] in
    (app queryWhereClauses
       ["salary >= $" ++ nat_to_string (length queryParameters)],
     queryParameters)
  else st.

Definition push_hasEquity (hasEquity : jsval) (st : list string * list jsval)
  : list string * list jsval :=
  let '(queryWhereClauses, queryParameters) := st in
  if is_true_strict hasEquity then
    (app queryWhereClauses ["equity > 0"], queryParameters)
  else st.

Definition title_pattern (title : jsval) : jsval :=
  JStr ("%" ++ js_to_string title ++ "%").

Definition push_title (title : jsval) (st : list string * list jsval)
  : list string * list jsval :=
  let '(queryWhereClauses, queryParameters) := st in
  if is_defined title then
    let queryParameters := app queryParameters [title_pattern title] in
    (app queryWhereClauses
       ["title ILIKE $" ++ nat_to_string (length queryParameters)],
     queryParameters)
  else st.

(** [{ minSalary, hasEquity, title } = {}]: a missing argument defaults to
    the empty object. *)
Definition criteria (arg : option jsobj) : jsval * jsval * jsval :=
  let o := match arg with Some o => o | None => [] end in
  (get_prop o "minSalary", get_prop o "hasEquity", get_prop o "title").

Definition findAll_where (minSalary hasEquity title : jsval)
  : list string * list jsval :=
  push_title title (push_hasEquity hasEquity (push_minSalary minSalary ([], []))).

Definition findAll_compose (minSalary hasEquity title : jsval)
  : string * list jsval :=
  let '(queryWhereClauses, queryParameters) :=
    findAll_where minSalary hasEquity title in
  let query :=
    if Nat.ltb 0 (length queryWhereClauses)
    then findAll_base ++ " WHERE " ++ join " AND " queryWhereClauses
    else findAll_base in
  (query ++ order_by, queryParameters).

Definition findAll_query (arg : option jsobj) : string * list jsval :=
  let '(minSalary, hasEquity, title) := criteria arg in
  findAll_compose minSalary hasEquity title.

(** *** Job.get: two lookups against the database *)

Record job_rec := {
  jr_id : Z; jr_title : jsval; jr_salary : jsval; jr_equity : jsval;
  jr_company_handle : string }.

Record company_rec := {
  cr_handle : string; cr_name : jsval; cr_description : jsval;
  cr_num_employees : jsval; cr_logo_url : jsval }.

Record database := {
  jobs_table : list job_rec; companies_table : list company_rec }.

(** The row shape of [SELECT id, title, salary, equity,
    company_handle AS "companyHandle" FROM jobs]. *)
Definition job_row (r : job_rec) : jsobj :=
  [("id", JNum (jr_id r)); ("title", jr_title r); ("salary", jr_salary r);
   ("equity", jr_equity r); ("companyHandle", JStr (jr_company_handle r))].

(** The row shape of the [companies] lookup. *)
Definition company_row (c : company_rec) : jsobj :=
  [("handle", JStr (cr_handle c)); ("name", cr_name c);
   ("description", cr_description c); ("numEmployees", cr_num_employees c);
   ("logoUrl", cr_logo_url c)].

Definition select_job (db : database) (id : Z) : list jsobj :=
  map job_row (filter (fun r => Z.eqb (jr_id r) id) (jobs_table db)).

Definition select_company (db : database) (handle : jsval) : list jsobj :=
  map company_row
    (filter (fun c => match handle with
                      | JStr h => String.eqb (cr_handle c) h
                      | _ => false
                      end) (companies_table db)).

(** The queries [Job.get] issues, in order. *)
Inductive query_event : Type :=
| QSelectJob (id : Z)
| QSelectCompany (handle : jsval).

(** [rows[0]] *)
Definition first_row (rows : list jsobj) : jsval :=
  match rows with [] => JUndef | r :: _ => JObj r end.

Definition get (db : database) (id : Z) : list query_event * result jsobj :=
  let jobResults := select_job db id in
  match jobResults with
  | [] => ([QSelectJob id], Err (NotFoundError ("No job: " ++ Z_to_string id)))
  | job :: _ =>
      let handle := get_prop job "companyHandle" in
      let companyResults := select_company db handle in
      let job := obj_delete job "companyHandle" in
      let job := obj_set job "company" (first_row companyResults) in
      ([QSelectJob id; QSelectCompany handle], Ok job)
  end.

(** *** Job.update, run against a database engine

    [exec sql params] stands for [db.query(sql, params)] and gives the rows
    of its [RETURNING] clause; the trace lists the statements sent. *)
Definition update (exec : string -> list jsval -> list jsobj) (id : jsval)
    (data : jsobj) : list (string * list jsval) * result jsobj :=
  match update_query id data with
  | Err e => ([], Err e)
  | Ok (sqlQuery, params) =>
      match exec sqlQuery params with
      | [] => ([(sqlQuery, params)],
               Err (NotFoundError ("No job: " ++ js_to_string id)))
      | job :: _ => ([(sqlQuery, params)], Ok job)
      end
  end.

(** *** Job.remove: [DELETE FROM jobs WHERE id = $1 RETURNING id] *)
Definition remove (db : database) (id : Z) : database * result unit :=
  let deleted := filter (fun r => Z.eqb (jr_id r) id) (jobs_table db) in
  let db' := {| jobs_table := filter (fun r => negb (Z.eqb (jr_id r) id))
                                (jobs_table db);
                companies_table := companies_table db |} in
  match deleted with
  | [] => (db', Err (NotFoundError ("No job: " ++ Z_to_string id)))
  | _ => (db', Ok tt)
  end.

End Job.

(** ** routes/jobs.js *)

Module JobRoutes.

Section Coercion.

(** Unary [+], JavaScript's ToNumber, left abstract. *)
Variable to_number : jsval -> jsval.

(** [v === "true"] *)
Definition is_true_string (v : jsval) : bool :=
  match v with JStr s => String.eqb s "true" | _ => false end.

(** GET /: the coercions applied to [req.query] before validation and
    [Job.findAll(q)]. *)
Definition search_criteria (q : jsobj) : jsobj :=
  let q :=
    if is_defined (get_prop q "minSalary")
    then obj_set q "minSalary" (to_number (get_prop q "minSalary"))
    else q in
  obj_set q "hasEquity" (JBool (is_true_string (get_prop q "hasEquity"))).

End Coercion.

End JobRoutes.

(** ** Lemmas on objects *)

Lemma insert_by_index_perm (a : string * jsval) (l : jsobj) :
  Permutation (insert_by_index a l) (a :: l).
Proof.
  induction l as [|b l IH]; simpl; [reflexivity|].
  destruct (Z.leb _ _); [reflexivity|].
  rewrite IH. apply perm_swap.
Qed.

Lemma sort_by_index_perm (l : jsobj) : Permutation (sort_by_index l) l.
Proof.
  induction l as [|a l IH]; simpl; [reflexivity|].
  rewrite insert_by_index_perm. now apply perm_skip.
Qed.

Lemma insert_by_index_sorted (a : string * jsval) (l : jsobj) :
  Sorted index_le l -> Sorted index_le (insert_by_index a l).
Proof.
  unfold index_le.
  induction 1 as [|b l Hs IH Hhd]; simpl.
  - repeat constructor.
  - destruct (Z.leb_spec (index_of (fst a)) (index_of (fst b))).
    + constructor; [constructor; assumption|]. constructor. exact H.
    + constructor; [exact IH|].
      destruct l as [|c l']; simpl.
      * constructor. lia.
      * inversion Hhd; subst.
        destruct (Z.leb _ _); constructor; lia.
Qed.

Lemma sort_by_index_sorted (l : jsobj) : Sorted index_le (sort_by_index l).
Proof.
  induction l as [|a l IH]; simpl; [constructor|].
  now apply insert_by_index_sorted.
Qed.

Lemma filter_split_perm {A} (f : A -> bool) (l : list A) :
  Permutation l (filter f l ++ filter (fun x => negb (f x)) l).
Proof.
  induction l as [|a l IH]; simpl; [reflexivity|].
  destruct (f a); simpl.
  - now apply perm_skip.
  - rewrite IH at 1. apply Permutation_middle.
Qed.

Lemma own_props_ordered_perm (o : jsobj) : Permutation (own_props_ordered o) o.
Proof.
  unfold own_props_ordered.
  rewrite (filter_split_perm (fun p => is_index_key (fst p)) o) at 3.
  apply Permutation_app_tail, sort_by_index_perm.
Qed.

Lemma own_props_ordered_nil (o : jsobj) : own_props_ordered o = [] <-> o = [].
Proof.
  split; intros H.
  - pose proof (own_props_ordered_perm o) as P. rewrite H in P.
    now apply Permutation_nil.
  - now subst.
Qed.

Lemma mapi_from_combine {A B} (f : A -> nat -> B) (s : nat) (l : list A) :
  mapi_from f s l = map (fun '(a, i) => f a i) (combine l (seq s (length l))).
Proof.
  revert s; induction l as [|a l IH]; intros s; simpl; [reflexivity|].
  now rewrite IH.
Qed.

Lemma combine_map_fst {A B C} (g : A -> B) (l : list A) (l' : list C) :
  combine (map g l) l' = map (fun '(a, c) => (g a, c)) (combine l l').
Proof.
  revert l'; induction l as [|a l IH]; intros [|c l']; simpl; auto.
  now rewrite IH.
Qed.

Lemma filter_all_true {A} (f : A -> bool) (l : list A) :
  forallb f l = true -> filter f l = l.
Proof.
  induction l as [|a l IH]; simpl; [reflexivity|].
  intros H; apply andb_prop in H as [H1 H2]. rewrite H1, IH; auto.
Qed.

Lemma filter_all_false {A} (f : A -> bool) (l : list A) :
  forallb (fun x => negb (f x)) l = true -> filter f l = [].
Proof.
  induction l as [|a l IH]; simpl; [reflexivity|].
  intros H; apply andb_prop in H as [H1 H2].
  destruct (f a); [discriminate|auto].
Qed.

Lemma sqlForPartialUpdate_ok (p m : jsobj) :
  p <> [] ->
  sqlForPartialUpdate p m =
  Ok {| setCols := join ", " (mapi_from (col_fragment m) 0 (object_keys p));
        values := object_values p |}.
Proof.
  intros Hp. unfold sqlForPartialUpdate.
  destruct (Nat.eqb_spec (length (object_keys p)) 0) as [H|H]; [|reflexivity].
  exfalso. apply Hp. unfold object_keys in H.
  apply length_zero_iff_nil, map_eq_nil in H.
  now apply own_props_ordered_nil.
Qed.

(** ** Claims on sqlForPartialUpdate *)

(** C1, as the spec states it, refuted: [Object.keys] does not list the
    keys in insertion order when one of them is an array index.  For the
    payload [{b: 5, "1": "x"}] the key ["1"] comes first, and swapping the
    two entries changes nothing. *)
Lemma sqlForPartialUpdate_insertion_order_cex :
  sqlForPartialUpdate [("b", JNum 5); ("1", JStr "x")] [] <>
    Ok {| setCols := dquote ++ "b" ++ dquote ++ "=$1, "
                     ++ dquote ++ "1" ++ dquote ++ "=$2";
          values := [JNum 5; JStr "x"] |}
  /\ sqlForPartialUpdate [("b", JNum 5); ("1", JStr "x")] [] =
     sqlForPartialUpdate [("1", JStr "x"); ("b", JNum 5)] [].
Proof.
  split; [vm_compute; congruence | reflexivity].
Qed.

(** C1 (amended): for a non-empty payload, the keys are taken in
    [Object.keys] order: the array-index keys first, sorted by their
    numeric value, then all other keys in insertion order.  The [i]-th
    fragment [""<column>""=$i] and the [i]-th value come from the same
    payload entry.  With no array-index key the order is the insertion
    order. *)
Theorem sqlForPartialUpdate_key_order (p m : jsobj) :
  p = [] \/
  ((exists idx : jsobj,
      Permutation idx (filter (fun e => is_index_key (fst e)) p) /\
      Sorted index_le idx /\
      let ord := app idx (filter (fun e => negb (is_index_key (fst e))) p) in
      sqlForPartialUpdate p m =
      Ok {| setCols :=
              join ", " (map (fun '(e, i) => col_fragment m (fst e) i)
                             (combine ord (seq 0 (length ord))));
            values := map snd ord |})
   /\ (if forallb (fun e => negb (is_index_key (fst e))) p
       then sqlForPartialUpdate p m =
            Ok {| setCols :=
                    join ", " (map (fun '(e, i) => col_fragment m (fst e) i)
                                   (combine p (seq 0 (length p))));
                  values := map snd p |}
       else True)).
Proof.
  destruct p as [|e p']; [now left|right].
  set (p := e :: p').
  assert (Hp : p <> []) by discriminate.
  assert (Hord : forall m,
    sqlForPartialUpdate p m =
    Ok {| setCols :=
            join ", " (map (fun '(e, i) => col_fragment m (fst e) i)
                           (combine (own_props_ordered p)
                              (seq 0 (length (own_props_ordered p)))));
          values := map snd (own_props_ordered p) |}).
  { intros m0. rewrite sqlForPartialUpdate_ok by exact Hp.
    unfold object_keys, object_values.
    rewrite mapi_from_combine, length_map, combine_map_fst, map_map.
    f_equal. f_equal. f_equal. apply map_ext. now intros [[k v] i]. }
  split.
  - exists (sort_by_index (filter (fun e => is_index_key (fst e)) p)).
    split; [apply sort_by_index_perm|].
    split; [apply sort_by_index_sorted|].
    apply Hord.
  - destruct (forallb _ p) eqn:Hall; [|exact I].
    rewrite Hord. unfold own_props_ordered.
    rewrite (filter_all_false (fun e => is_index_key (fst e))) by exact Hall.
    rewrite (filter_all_true _ _ Hall). reflexivity.
Qed.

Lemma mapi_col_fragment (m : jsobj) (s : nat) (keys : list string) :
  mapi_from (col_fragment m) s keys =
  map (fun '(k, i) =>
         dquote ++ js_to_string (js_or (get_prop m k) (JStr k))
         ++ dquote ++ "=$" ++ nat_to_string i)
      (combine keys (seq (S s) (length keys))).
Proof.
  revert s; induction keys as [|k keys IH]; intros s; simpl; [reflexivity|].
  rewrite IH. unfold col_fragment. now rewrite Nat.add_1_r.
Qed.

(** C2: the placeholders of [setCols] are [$1 .. $n] in key order, with
    [n] the length of [values]; [Job.update] appends the row id as
    parameter [$(n+1)], the last entry of the parameter list. *)
Theorem sqlForPartialUpdate_placeholders (m p : jsobj) (id : jsval) :
  p = [] \/
  ((exists pu : partial_update,
      sqlForPartialUpdate p m = Ok pu /\
      length (object_keys p) = length (values pu) /\
      setCols pu =
      join ", "
        (map (fun '(k, i) =>
                dquote ++ js_to_string (js_or (get_prop m k) (JStr k))
                ++ dquote ++ "=$" ++ nat_to_string i)
             (combine (object_keys p) (seq 1 (length (values pu))))))
   /\ (exists pu : partial_update,
      sqlForPartialUpdate p [] = Ok pu /\
      Job.update_query id p =
      Ok (Job.update_sql (setCols pu)
            ("$" ++ nat_to_string (length (values pu) + 1)),
          app (values pu) [id]) /\
      nth (length (values pu)) (app (values pu) [id]) JUndef = id /\
      length (app (values pu) [id]) = length (values pu) + 1)).
Proof.
  destruct p as [|e p']; [now left|right].
  assert (Hp : e :: p' <> []) by discriminate.
  assert (Hlen : length (object_keys (e :: p')) =
                 length (object_values (e :: p'))).
  { unfold object_keys, object_values. now rewrite !length_map. }
  split.
  - eexists; split; [apply sqlForPartialUpdate_ok, Hp|]. simpl.
    split; [exact Hlen|].
    now rewrite mapi_col_fragment, <- Hlen.
  - eexists; split; [apply sqlForPartialUpdate_ok, Hp|].
    unfold Job.update_query. rewrite sqlForPartialUpdate_ok by exact Hp.
    simpl. split; [reflexivity|]. split.
    + rewrite app_nth2 by lia. now rewrite Nat.sub_diag.
    + rewrite length_app. reflexivity.
Qed.

(** C3: an empty payload fails with [BadRequestError "No data"] whatever
    the field map; a non-empty payload always yields a clause and values. *)
Theorem sqlForPartialUpdate_empty (p m : jsobj) :
  (p = [] /\ sqlForPartialUpdate p m = Err (BadRequestError "No data")) \/
  (0 < length p /\ exists pu, sqlForPartialUpdate p m = Ok pu).
Proof.
  destruct p as [|e p'].
  - left. split; reflexivity.
  - right. split; [simpl; lia|].
    eexists. apply sqlForPartialUpdate_ok. discriminate.
Qed.

(** C10: the column name falls back to the key whenever [jsToSql[key]] is
    falsy ([undefined], [null], [""], [0], [false]), not only when it is
    missing. *)
Theorem sqlForPartialUpdate_falsy_fallback (m : jsobj) (k : string)
    (v : jsval) (i : nat) :
  truthy (get_prop m k) = false ->
  col_fragment m k i = dquote ++ k ++ dquote ++ "=$" ++ nat_to_string (i + 1) /\
  sqlForPartialUpdate [(k, v)] m =
    Ok {| setCols := dquote ++ k ++ dquote ++ "=$1"; values := [v] |}.
Proof.
  intros Hf.
  assert (Hc : forall j, col_fragment m k j =
               dquote ++ k ++ dquote ++ "=$" ++ nat_to_string (j + 1)).
  { intros j. unfold col_fragment, js_or. now rewrite Hf. }
  split; [apply Hc|].
  rewrite sqlForPartialUpdate_ok by discriminate.
  assert (Ho : own_props_ordered [(k, v)] = [(k, v)]).
  { unfold own_props_ordered; simpl. now destruct (is_index_key k). }
  unfold object_keys, object_values. rewrite Ho. simpl.
  now rewrite Hc.
Qed.

Lemma sqlForPartialUpdate_falsy_fallback_witness :
  truthy (get_prop [("a", JStr "")] "a") = false /\
  col_fragment [("a", JStr "")] "a" 0 =
    dquote ++ "a" ++ dquote ++ "=$" ++ nat_to_string (0 + 1) /\
  sqlForPartialUpdate [("a", JNum 1)] [("a", JStr "")] =
    Ok {| setCols := dquote ++ "a" ++ dquote ++ "=$1"; values := [JNum 1] |}.
Proof.
  split; [reflexivity|].
  apply (sqlForPartialUpdate_falsy_fallback [("a", JStr "")] "a" (JNum 1) 0).
  reflexivity.
Defined.

(** ** Claims on Job.findAll *)

Lemma string_app_assoc (a b c : string) : (a ++ b) ++ c = a ++ (b ++ c).
Proof. induction a as [|x a IH]; simpl; [reflexivity|]. now rewrite IH. Qed.

(** The three criteria blocks, case by case. *)
Ltac criteria_cases ms h t :=
  unfold Job.findAll_where, Job.push_minSalary, Job.push_hasEquity,
    Job.push_title;
  destruct (is_defined ms) eqn:?; destruct (is_true_strict h) eqn:?;
  destruct (is_defined t) eqn:?.

(** C4: [hasEquity] adds the literal clause [equity > 0], and no parameter,
    exactly when it is [true]; [false] or a missing value adds nothing. *)
Theorem findAll_hasEquity (ms h t : jsval) :
  snd (Job.findAll_where ms h t) = snd (Job.findAll_where ms JUndef t) /\
  count_occ string_dec (fst (Job.findAll_where ms h t)) "equity > 0" =
    (if is_true_strict h then 1 else 0) /\
  (if is_true_strict h
   then exists a b,
     fst (Job.findAll_where ms JUndef t) = app a b /\
     fst (Job.findAll_where ms h t) = app a ("equity > 0" :: b)
   else Job.findAll_where ms h t = Job.findAll_where ms JUndef t) /\
  Job.findAll_query (Some [("hasEquity", JBool false)]) =
    Job.findAll_query (Some []).
Proof.
  split; [|split; [|split]].
  - criteria_cases ms h t; reflexivity.
  - criteria_cases ms h t; reflexivity.
  - set (a := if is_defined ms then ["salary >= $1"] else []).
    set (b := if is_defined t
              then ["title ILIKE $" ++
                    nat_to_string (if is_defined ms then 2 else 1)]
              else []).
    destruct (is_true_strict h) eqn:Hh.
    + exists a, b. subst a b. criteria_cases ms h t;
        try discriminate; split; reflexivity.
    + criteria_cases ms h t; try discriminate; reflexivity.
  - reflexivity.
Qed.

(** C5: the clauses come in the fixed order minSalary, hasEquity, title,
    each placeholder is the position of its value in the parameter list,
    and only the three named properties of the criteria object are read,
    so the order in which they were supplied does not matter. *)
Theorem findAll_fixed_order (o : jsobj) (ms h t : jsval) :
  Job.findAll_where ms h t =
    (app (if is_defined ms then ["salary >= $1"] else [])
       (app (if is_true_strict h then ["equity > 0"] else [])
          (if is_defined t
           then ["title ILIKE $" ++
                 nat_to_string (if is_defined ms then 2 else 1)]
           else [])),
     app (if is_defined ms then [ms] else [])
         (if is_defined t then [Job.title_pattern t] else [])) /\
  Job.findAll_query (Some o) =
    Job.findAll_compose (get_prop o "minSalary") (get_prop o "hasEquity")
      (get_prop o "title") /\
  Job.findAll_query (Some [("minSalary", JNum 100); ("title", JStr "eng")]) =
    (Job.findAll_base ++ " WHERE salary >= $1 AND title ILIKE $2"
       ++ Job.order_by, [JNum 100; JStr "%eng%"]) /\
  Job.findAll_query (Some [("title", JStr "eng"); ("minSalary", JNum 100)]) =
    Job.findAll_query (Some [("minSalary", JNum 100); ("title", JStr "eng")]).
Proof.
  split; [|split; [|split]].
  - criteria_cases ms h t; reflexivity.
  - reflexivity.
  - vm_compute. reflexivity.
  - vm_compute. reflexivity.
Qed.

(** C6: a title is passed only as the bound value [%title%] behind the
    predicate [title ILIKE $n]; the SQL text does not depend on it. *)
Theorem findAll_title_bound (ms h : jsval) (s1 s2 : string) :
  fst (Job.findAll_compose ms h (JStr s1)) =
    fst (Job.findAll_compose ms h (JStr s2)) /\
  snd (Job.findAll_compose ms h (JStr s1)) =
    app (if is_defined ms then [ms] else []) [JStr ("%" ++ s1 ++ "%")] /\
  fst (Job.findAll_compose ms h (JStr s1)) =
    Job.findAll_base ++ " WHERE " ++
    join " AND "
      (app (app (if is_defined ms then ["salary >= $1"] else [])
                (if is_true_strict h then ["equity > 0"] else []))
           ["title ILIKE $" ++
            nat_to_string (length (snd (Job.findAll_compose ms h (JStr s1))))])
    ++ Job.order_by.
Proof.
  unfold Job.findAll_compose, Job.findAll_where, Job.push_minSalary,
    Job.push_hasEquity, Job.push_title.
  destruct (is_defined ms); destruct (is_true_strict h);
    cbn -[Job.findAll_base Job.order_by];
    rewrite ?string_app_assoc; repeat split.
Qed.

(** C7: without criteria, or with criteria that give no clause, the
    statement is the base [SELECT] followed by [ORDER BY title], with no
    [WHERE] and no parameter; every statement ends with the same sort. *)
Theorem findAll_no_criteria (ms h t : jsval) :
  Job.findAll_query None = (Job.findAll_base ++ Job.order_by, []) /\
  Job.findAll_query (Some []) = (Job.findAll_base ++ Job.order_by, []) /\
  (exists w, fst (Job.findAll_compose ms h t) =
             Job.findAll_base ++ w ++ Job.order_by) /\
  match Job.findAll_where ms h t with
  | ([], ps) =>
      ps = [] /\
      Job.findAll_compose ms h t = (Job.findAll_base ++ Job.order_by, [])
  | (cl, ps) =>
      Job.findAll_compose ms h t =
        (Job.findAll_base ++ " WHERE " ++ join " AND " cl ++ Job.order_by, ps)
  end.
Proof.
  split; [reflexivity|]. split; [reflexivity|].
  unfold Job.findAll_compose.
  destruct (Job.findAll_where ms h t) as [cl ps] eqn:Hw.
  split.
  - exists (if Nat.ltb 0 (length cl) then " WHERE " ++ join " AND " cl else "").
    destruct cl; simpl; rewrite ?string_app_assoc; reflexivity.
  - destruct cl as [|c cl].
    + assert (ps = []).
      { revert Hw. criteria_cases ms h t; simpl; congruence. }
      subst ps. split; reflexivity.
    + simpl. rewrite ?string_app_assoc. reflexivity.
Qed.

(** ** Claim on Job.get *)

Lemma filter_nil_forall {A} (f : A -> bool) (l : list A) :
  filter f l = [] -> Forall (fun x => f x = false) l.
Proof.
  induction l as [|a l IH]; simpl; intros H; [constructor|].
  destruct (f a) eqn:Ha; [discriminate|]. constructor; auto.
Qed.

(** C8: [Job.get] fails with [NotFoundError "No job: <id>"], after the one
    job lookup, exactly when no job row has that id; otherwise it looks up
    the company of the first matching row and returns the row with
    [companyHandle] removed and the company row (or [undefined]) under
    [company]. *)
Theorem get_two_step (db : Job.database) (id : Z) :
  match Job.get db id with
  | (tr, Err e) =>
      e = NotFoundError ("No job: " ++ Z_to_string id) /\
      tr = [Job.QSelectJob id] /\
      Forall (fun r => Z.eqb (Job.jr_id r) id = false) (Job.jobs_table db)
  | (tr, Ok job) =>
      exists r rest,
        filter (fun r => Z.eqb (Job.jr_id r) id) (Job.jobs_table db) = r :: rest /\
        tr = [Job.QSelectJob id;
              Job.QSelectCompany (JStr (Job.jr_company_handle r))] /\
        job = [("id", JNum (Job.jr_id r)); ("title", Job.jr_title r);
               ("salary", Job.jr_salary r); ("equity", Job.jr_equity r);
               ("company",
                Job.first_row
                  (Job.select_company db (JStr (Job.jr_company_handle r))))] /\
        get_own job "companyHandle" = None
  end.
Proof.
  unfold Job.get, Job.select_job.
  destruct (filter (fun r => Z.eqb (Job.jr_id r) id) (Job.jobs_table db))
    as [|r rest] eqn:Hf; simpl.
  - split; [reflexivity|]. split; [reflexivity|].
    now apply filter_nil_forall.
  - exists r, rest. split; [reflexivity|]. split; [reflexivity|].
    split; reflexivity.
Qed.

(** ** Further properties of the code *)

Lemma get_own_obj_set_same (o : jsobj) (k : string) (v : jsval) :
  get_own (obj_set o k v) k = Some v.
Proof.
  induction o as [|[k' v'] o IH]; simpl.
  - now rewrite String.eqb_refl.
  - destruct (String.eqb k k') eqn:E; simpl; rewrite E; auto.
Qed.

Lemma get_own_obj_set_other (o : jsobj) (k k' : string) (v : jsval) :
  k' <> k -> get_own (obj_set o k v) k' = get_own o k'.
Proof.
  intros Hne. induction o as [|[k0 v0] o IH]; simpl.
  - apply String.eqb_neq in Hne. now rewrite Hne.
  - destruct (String.eqb k k0) eqn:E; simpl.
    + apply String.eqb_eq in E; subst k0.
      apply String.eqb_neq in Hne. now rewrite Hne.
    + now rewrite IH.
Qed.

Lemma get_prop_obj_set_same (o : jsobj) (k : string) (v : jsval) :
  get_prop (obj_set o k v) k = v.
Proof. unfold get_prop. now rewrite get_own_obj_set_same. Qed.

Lemma get_prop_obj_set_other (o : jsobj) (k k' : string) (v : jsval) :
  k' <> k -> get_prop (obj_set o k v) k' = get_prop o k'.
Proof. intros H. unfold get_prop. now rewrite get_own_obj_set_other. Qed.

Lemma map_fst_insert_by_index (a1 a2 : string * jsval) (l1 l2 : jsobj) :
  fst a1 = fst a2 -> map fst l1 = map fst l2 ->
  map fst (insert_by_index a1 l1) = map fst (insert_by_index a2 l2).
Proof.
  revert l2; induction l1 as [|b1 l1 IH]; intros [|b2 l2] Ha Hl;
    simpl in *; try discriminate.
  - now rewrite Ha.
  - injection Hl as Hb Hl. rewrite Ha, Hb.
    destruct (Z.leb _ _); simpl.
    + rewrite Ha, Hb, Hl. reflexivity.
    + rewrite Hb. f_equal. now apply IH.
Qed.

Lemma map_fst_sort_by_index (l1 l2 : jsobj) :
  map fst l1 = map fst l2 ->
  map fst (sort_by_index l1) = map fst (sort_by_index l2).
Proof.
  revert l2; induction l1 as [|a1 l1 IH]; intros [|a2 l2] Hl;
    simpl in *; try discriminate; [reflexivity|].
  injection Hl as Ha Hl. apply map_fst_insert_by_index; auto.
Qed.

Lemma map_fst_filter_key (f : string -> bool) (l1 l2 : jsobj) :
  map fst l1 = map fst l2 ->
  map fst (filter (fun p => f (fst p)) l1) =
  map fst (filter (fun p => f (fst p)) l2).
Proof.
  revert l2; induction l1 as [|a1 l1 IH]; intros [|a2 l2] Hl;
    simpl in *; try discriminate; [reflexivity|].
  injection Hl as Ha Hl. rewrite Ha.
  destruct (f (fst a2)); simpl; [rewrite Ha; f_equal|]; auto.
Qed.

Lemma object_keys_fst (p1 p2 : jsobj) :
  map fst p1 = map fst p2 -> object_keys p1 = object_keys p2.
Proof.
  intros H. unfold object_keys, own_props_ordered. rewrite !map_app. f_equal.
  - apply map_fst_sort_by_index. now apply (map_fst_filter_key is_index_key).
  - now apply (map_fst_filter_key (fun k => negb (is_index_key k))).
Qed.

(** X1: the SET clause depends only on the payload's keys: two payloads
    with the same keys in the same order give the same [setCols] (or the
    same error), whatever their values. *)
Theorem sqlForPartialUpdate_values_not_inlined (p1 p2 m : jsobj) :
  map fst p1 = map fst p2 ->
  match sqlForPartialUpdate p1 m, sqlForPartialUpdate p2 m with
  | Ok pu1, Ok pu2 => setCols pu1 = setCols pu2
  | Err e1, Err e2 => e1 = e2
  | _, _ => False
  end.
Proof.
  intros H. unfold sqlForPartialUpdate. rewrite (object_keys_fst p1 p2 H).
  destruct (Nat.eqb _ 0); reflexivity.
Qed.

Lemma sqlForPartialUpdate_values_not_inlined_witness :
  map fst [("title", JStr "x")] =
    map fst [("title", JStr "x'; DROP TABLE jobs; --")] /\
  match sqlForPartialUpdate [("title", JStr "x")] [],
        sqlForPartialUpdate [("title", JStr "x'; DROP TABLE jobs; --")] [] with
  | Ok pu1, Ok pu2 => setCols pu1 = setCols pu2
  | Err e1, Err e2 => e1 = e2
  | _, _ => False
  end.
Proof.
  split; [reflexivity|].
  apply (sqlForPartialUpdate_values_not_inlined [("title", JStr "x")]
           [("title", JStr "x'; DROP TABLE jobs; --")] []).
  reflexivity.
Defined.

(** X2: for a non-empty payload, [values] holds each payload value once:
    it is a permutation of the payload's values. *)
Theorem sqlForPartialUpdate_values_perm (p m : jsobj) :
  p = [] \/
  exists pu, sqlForPartialUpdate p m = Ok pu /\
             Permutation (values pu) (map snd p) /\
             length (values pu) = length p.
Proof.
  destruct p as [|e p']; [now left|right].
  eexists; split; [apply sqlForPartialUpdate_ok; discriminate|]. simpl.
  unfold object_values.
  assert (P : Permutation (map snd (own_props_ordered (e :: p')))
                          (map snd (e :: p')))
    by (apply Permutation_map, own_props_ordered_perm).
  split; [exact P|]. rewrite (Permutation_length P). apply length_map.
Qed.

(** X3: [Job.update] with an empty payload fails with
    [BadRequestError "No data"] before any statement is sent; otherwise it
    sends exactly one statement whose last parameter is the id, and fails
    with [NotFoundError "No job: <id>"] exactly when that statement returns
    no row, else returns the first row. *)
Theorem update_run (exec : string -> list jsval -> list jsobj) (id : jsval)
    (data : jsobj) :
  (data = [] /\ Job.update exec id data = ([], Err (BadRequestError "No data")))
  \/
  (0 < length data /\
   exists sqlQuery params,
     Job.update_query id data = Ok (sqlQuery, params) /\
     fst (Job.update exec id data) = [(sqlQuery, params)] /\
     last params JUndef = id /\
     (exec sqlQuery params = [] ->
      snd (Job.update exec id data) =
        Err (NotFoundError ("No job: " ++ js_to_string id))) /\
     (forall row rows, exec sqlQuery params = row :: rows ->
      snd (Job.update exec id data) = Ok row)).
Proof.
  destruct data as [|e d'].
  - left. split; reflexivity.
  - right. split; [simpl; lia|].
    unfold Job.update, Job.update_query.
    rewrite sqlForPartialUpdate_ok by discriminate. simpl.
    eexists; eexists. split; [reflexivity|].
    destruct (exec _ _) as [|row rows] eqn:Hx; simpl.
    + split; [reflexivity|]. split; [apply last_last|].
      split; [reflexivity|]. intros row rows H; discriminate.
    + split; [reflexivity|]. split; [apply last_last|].
      split; [discriminate|]. intros r rs H. injection H as <- _. reflexivity.
Qed.

Lemma get_own_prototype_truthy (k : string) (v : jsval) :
  get_own object_prototype k = Some v -> truthy v = true.
Proof.
  unfold object_prototype; simpl.
  repeat (destruct (String.eqb k _); [intros H; injection H as <-; reflexivity|]).
  discriminate.
Qed.

Lemma own_props_ordered_single (k : string) (v : jsval) :
  own_props_ordered [(k, v)] = [(k, v)].
Proof. unfold own_props_ordered; simpl. now destruct (is_index_key k). Qed.

(** X4: [Job.update] passes the empty field map [{}], so each column is
    the payload key itself, except for keys naming an [Object.prototype]
    member, whose inherited value is used instead (the key [constructor]
    yields the column ["function Object() { [native code] }"]). *)
Theorem update_column_names (id v : jsval) (k : string) (i : nat) :
  col_fragment [] k i =
    dquote ++ (match get_own object_prototype k with
               | Some pv => js_to_string pv
               | None => k
               end) ++ dquote ++ "=$" ++ nat_to_string (i + 1) /\
  Job.update_query id [(k, v)] =
    Ok (Job.update_sql
          (dquote ++ (match get_own object_prototype k with
                      | Some pv => js_to_string pv
                      | None => k
                      end) ++ dquote ++ "=$1") "$2", [v; id]) /\
  col_fragment [] "constructor" 0 =
    dquote ++ "function Object() { [native code] }" ++ dquote ++ "=$1".
Proof.
  assert (Hc : forall j, col_fragment [] k j =
    dquote ++ (match get_own object_prototype k with
               | Some pv => js_to_string pv
               | None => k
               end) ++ dquote ++ "=$" ++ nat_to_string (j + 1)).
  { intros j. unfold col_fragment, get_prop, js_or. simpl get_own at 1.
    destruct (get_own object_prototype k) as [pv|] eqn:E.
    - now rewrite (get_own_prototype_truthy k pv E).
    - reflexivity. }
  split; [apply Hc|]. split; [|reflexivity].
  unfold Job.update_query.
  rewrite sqlForPartialUpdate_ok by discriminate.
  unfold object_keys, object_values. rewrite own_props_ordered_single.
  simpl. now rewrite Hc.
Qed.

(** X5: the jobs list route turns [hasEquity] into a boolean that is
    [true] exactly for the query string value ["true"], so the statement of
    [Job.findAll] has the [equity > 0] clause exactly then. *)
Theorem search_hasEquity (to_number : jsval -> jsval) (q : jsobj) :
  let q' := JobRoutes.search_criteria to_number q in
  get_prop q' "hasEquity" =
    JBool (JobRoutes.is_true_string (get_prop q "hasEquity")) /\
  count_occ string_dec
    (fst (Job.findAll_where (get_prop q' "minSalary")
            (get_prop q' "hasEquity") (get_prop q' "title")))
    "equity > 0" =
    (if JobRoutes.is_true_string (get_prop q "hasEquity") then 1 else 0).
Proof.
  cbv zeta. unfold JobRoutes.search_criteria.
  set (q1 := if is_defined (get_prop q "minSalary")
             then obj_set q "minSalary" (to_number (get_prop q "minSalary"))
             else q).
  assert (Hq1 : get_prop q1 "hasEquity" = get_prop q "hasEquity").
  { subst q1. destruct (is_defined _); [|reflexivity].
    now apply get_prop_obj_set_other. }
  rewrite get_prop_obj_set_same, Hq1. split; [reflexivity|].
  unfold Job.findAll_where, Job.push_minSalary, Job.push_hasEquity,
    Job.push_title.
  destruct (JobRoutes.is_true_string (get_prop q "hasEquity"));
    destruct (is_defined (get_prop (obj_set q1 "hasEquity" _) "minSalary"));
    destruct (is_defined (get_prop (obj_set q1 "hasEquity" _) "title"));
    reflexivity.
Qed.

(** X6: when ToNumber never yields [undefined], the jobs list route keeps
    [title] as given, and the statement of [Job.findAll] has the clause
    [salary >= $1] exactly when the query string has [minSalary], bound to
    its coerced value. *)
Theorem search_minSalary (to_number : jsval -> jsval) (q : jsobj) :
  (forall v, is_defined (to_number v) = true) ->
  let q' := JobRoutes.search_criteria to_number q in
  get_prop q' "title" = get_prop q "title" /\
  (In "salary >= $1"
     (fst (Job.findAll_where (get_prop q' "minSalary")
             (get_prop q' "hasEquity") (get_prop q' "title")))
   <-> is_defined (get_prop q "minSalary") = true) /\
  (is_defined (get_prop q "minSalary") = true ->
   nth 0 (snd (Job.findAll_where (get_prop q' "minSalary")
                 (get_prop q' "hasEquity") (get_prop q' "title"))) JUndef
   = to_number (get_prop q "minSalary")).
Proof.
  intros Hnum. cbv zeta. unfold JobRoutes.search_criteria.
  set (b := JBool _).
  rewrite !(get_prop_obj_set_other _ "hasEquity") by discriminate.
  destruct (is_defined (get_prop q "minSalary")) eqn:Hm.
  - rewrite get_prop_obj_set_same,
      (get_prop_obj_set_other _ "minSalary" "title") by discriminate.
    split; [reflexivity|].
    unfold Job.findAll_where, Job.push_minSalary, Job.push_hasEquity,
      Job.push_title.
    rewrite Hnum. simpl.
    destruct (is_true_strict (get_prop _ "hasEquity"));
      destruct (is_defined (get_prop q "title")); simpl;
      (split; [split; [intros _; reflexivity | intros _; now left] |]);
      intros _; reflexivity.
  - split; [reflexivity|].
    unfold Job.findAll_where, Job.push_minSalary, Job.push_hasEquity,
      Job.push_title.
    rewrite ?Hm. simpl.
    destruct (is_true_strict (get_prop _ "hasEquity"));
      destruct (is_defined (get_prop q "title")); simpl;
      (split; [split; [intros H; decompose [or] H;
                         first [discriminate | contradiction]
                      | discriminate] |]);
      discriminate.
Qed.

Lemma search_minSalary_witness :
  (forall v : jsval, is_defined ((fun _ => JNum 100) v) = true) /\
  let q' := JobRoutes.search_criteria (fun _ => JNum 100)
              [("minSalary", JStr "100")] in
  get_prop q' "title" = get_prop [("minSalary", JStr "100")] "title" /\
  (In "salary >= $1"
     (fst (Job.findAll_where (get_prop q' "minSalary")
             (get_prop q' "hasEquity") (get_prop q' "title")))
   <-> is_defined (get_prop [("minSalary", JStr "100")] "minSalary") = true) /\
  (is_defined (get_prop [("minSalary", JStr "100")] "minSalary") = true ->
   nth 0 (snd (Job.findAll_where (get_prop q' "minSalary")
                 (get_prop q' "hasEquity") (get_prop q' "title"))) JUndef
   = (fun _ => JNum 100) (get_prop [("minSalary", JStr "100")] "minSalary")).
Proof.
  split; [intros v; reflexivity|].
  apply (search_minSalary (fun _ => JNum 100) [("minSalary", JStr "100")]).
  intros v; reflexivity.
Defined.

Lemma filter_negb_all {A} (f : A -> bool) (l : list A) :
  Forall (fun x => f x = false) l -> filter (fun x => negb (f x)) l = l.
Proof.
  induction 1 as [|a l Ha _ IH]; simpl; [reflexivity|].
  now rewrite Ha, IH.
Qed.

Lemma filter_filter_comm {A} (f g : A -> bool) (l : list A) :
  filter f (filter g l) = filter (fun x => andb (g x) (f x)) l.
Proof.
  induction l as [|a l IH]; simpl; [reflexivity|].
  destruct (g a); simpl; [destruct (f a); simpl; now rewrite IH|exact IH].
Qed.

(** X7: [Job.remove] fails with [NotFoundError "No job: <id>"] exactly when
    no job has that id, and then leaves the database unchanged. *)
Theorem remove_missing (db : Job.database) (id : Z) :
  match Job.remove db id with
  | (db', Err e) =>
      e = NotFoundError ("No job: " ++ Z_to_string id) /\ db' = db /\
      Forall (fun r => Z.eqb (Job.jr_id r) id = false) (Job.jobs_table db)
  | (_, Ok _) => exists r, In r (Job.jobs_table db) /\ Job.jr_id r = id
  end.
Proof.
  unfold Job.remove.
  destruct (filter (fun r => Z.eqb (Job.jr_id r) id) (Job.jobs_table db))
    as [|r rest] eqn:Hf.
  - apply filter_nil_forall in Hf.
    split; [reflexivity|]. split; [|exact Hf].
    rewrite (filter_negb_all (fun r => Z.eqb (Job.jr_id r) id) _ Hf).
    now destruct db.
  - assert (Hin : In r (filter (fun r => Z.eqb (Job.jr_id r) id)
                               (Job.jobs_table db))) by (rewrite Hf; now left).
    apply filter_In in Hin as [Hin Heq].
    exists r. split; [exact Hin|]. now apply Z.eqb_eq.
Qed.

(** X8: after [Job.remove db id], whether it succeeded or not, no job with
    that id is left, and [Job.get] of that id fails with
    [NotFoundError "No job: <id>"] after a single lookup. *)
Theorem remove_then_get (db : Job.database) (id : Z) :
  Forall (fun r => Job.jr_id r <> id) (Job.jobs_table (fst (Job.remove db id))) /\
  Job.get (fst (Job.remove db id)) id =
    ([Job.QSelectJob id], Err (NotFoundError ("No job: " ++ Z_to_string id))).
Proof.
  assert (Hj : Job.jobs_table (fst (Job.remove db id)) =
               filter (fun r => negb (Z.eqb (Job.jr_id r) id))
                      (Job.jobs_table db)).
  { unfold Job.remove.
    now destruct (filter (fun r => Z.eqb (Job.jr_id r) id) (Job.jobs_table db)). }
  split.
  - rewrite Hj. apply Forall_forall. intros r Hr.
    apply filter_In in Hr as [_ Hr]. apply negb_true_iff, Z.eqb_neq in Hr.
    exact Hr.
  - unfold Job.get, Job.select_job. rewrite Hj, filter_filter_comm.
    replace (filter _ (Job.jobs_table db)) with (@nil Job.job_rec);
      [reflexivity|].
    clear Hj. induction (Job.jobs_table db) as [|r l IH]; simpl; [reflexivity|].
    destruct (Z.eqb (Job.jr_id r) id); simpl; exact IH.
Qed.

(** X9: removing job [id] does not change what [Job.get] returns for any
    other id, including the queries it issues. *)
Theorem remove_other_get (db : Job.database) (id id' : Z) :
  id' <> id ->
  Job.get (fst (Job.remove db id)) id' = Job.get db id'.
Proof.
  intros Hne.
  assert (Hj : Job.jobs_table (fst (Job.remove db id)) =
               filter (fun r => negb (Z.eqb (Job.jr_id r) id))
                      (Job.jobs_table db)).
  { unfold Job.remove.
    now destruct (filter (fun r => Z.eqb (Job.jr_id r) id) (Job.jobs_table db)). }
  assert (Hc : Job.companies_table (fst (Job.remove db id)) =
               Job.companies_table db).
  { unfold Job.remove.
    now destruct (filter (fun r => Z.eqb (Job.jr_id r) id) (Job.jobs_table db)). }
  unfold Job.get, Job.select_job, Job.select_company.
  rewrite Hj, Hc, filter_filter_comm.
  replace (filter (fun r => andb (negb (Z.eqb (Job.jr_id r) id))
                                 (Z.eqb (Job.jr_id r) id'))
                 (Job.jobs_table db)) with
    (filter (fun r => Z.eqb (Job.jr_id r) id') (Job.jobs_table db));
    [reflexivity|].
  apply filter_ext. intros r.
  destruct (Z.eqb_spec (Job.jr_id r) id'); simpl.
  - subst. apply Z.eqb_neq in Hne. now rewrite Hne.
  - now destruct (Z.eqb _ id).
Qed.

Lemma remove_other_get_witness :
  (2 <> 1)%Z /\
  Job.get (fst (Job.remove
    {| Job.jobs_table :=
         [{| Job.jr_id := 1; Job.jr_title := JStr "a"; Job.jr_salary := JNum 1;
             Job.jr_equity := JNull; Job.jr_company_handle := "c" |};
          {| Job.jr_id := 2; Job.jr_title := JStr "b"; Job.jr_salary := JNum 2;
             Job.jr_equity := JNull; Job.jr_company_handle := "c" |}];
       Job.companies_table := [] |} 1)) 2 =
  Job.get
    {| Job.jobs_table :=
         [{| Job.jr_id := 1; Job.jr_title := JStr "a"; Job.jr_salary := JNum 1;
             Job.jr_equity := JNull; Job.jr_company_handle := "c" |};
          {| Job.jr_id := 2; Job.jr_title := JStr "b"; Job.jr_salary := JNum 2;
             Job.jr_equity := JNull; Job.jr_company_handle := "c" |}];
       Job.companies_table := [] |} 2.
Proof.
  split; [lia|].
  apply remove_other_get. lia.
Defined.
